(** * mcp_search_linkup/server.py: the tool catalog, the tool invoker and the
      logging-level handler, embedded and verified.

    The three handlers registered on the MCP server object are embedded as
    computations in a state-and-exception monad over a [world]: the state of
    the external collaborators (search provider, protocol session), the
    threshold of the process-wide logger, and the trace of effects performed
    so far.  The external collaborators are an interface ([Collaborators]):
    every call to them may return or raise, and may change their state. *)

From Stdlib Require Import ZArith String Ascii List Floats Lia.
From stdpp Require Import gmap strings list fin_maps.

Set Warnings "-register-all".
Local Open Scope string_scope.
Local Open Scope list_scope.

(** ** Python values *)

Module Py.

(** The values a decoded JSON document is made of: the [arguments] mapping
    of a tool call holds such values, and so does a JSON schema. *)
Inductive pyval : Type :=
| PNone
| PBool (b : bool)
| PInt (z : Z)
| PFloat (f : float)
| PStr (s : string)
| PList (l : list pyval)
| PDict (d : gmap string pyval).

(** [bool(v)]: the truth value tested by [if not v]. *)
Definition truthy (v : pyval) : bool :=
  match v with
  | PNone => false
  | PBool b => b
  | PInt z => negb (z =? 0)%Z
  | PFloat f => negb (PrimFloat.eqb f PrimFloat.zero)
  | PStr s => negb (String.eqb s "")
  | PList l => match l with [] => false | _ :: _ => true end
  | PDict d => negb (size d =? 0)%nat
  end.

(** [d.get(key)]: the value stored under [key], [None] when absent. *)
Definition dict_get (d : gmap string pyval) (key : string) : pyval :=
  match d !! key with
  | Some v => v
  | None => PNone
  end.

(** [c.upper()] and [s.upper()] on ASCII text (the logging level names of
    the protocol are ASCII). *)
Definition upper_ascii (c : ascii) : ascii :=
  let n := N_of_ascii c in
  if ((97 <=? n) && (n <=? 122))%N then ascii_of_N (n - 32) else c.

Fixpoint upper (s : string) : string :=
  match s with
  | EmptyString => EmptyString
  | String c s' => String (upper_ascii c) (upper s')
  end.

End Py.
Export Py.

(** ** The [logging] module of the Python standard library *)

Module Logging.

Definition CRITICAL : Z := 50.
Definition ERROR : Z := 40.
Definition WARNING : Z := 30.
Definition INFO : Z := 20.
Definition DEBUG : Z := 10.
Definition NOTSET : Z := 0.

(** [logging._nameToLevel], the table [Logger.setLevel] consults when it is
    given a string. *)
Definition _nameToLevel : list (string * Z) :=
  [ ("CRITICAL", CRITICAL); ("FATAL", CRITICAL); ("ERROR", ERROR);
    ("WARN", WARNING); ("WARNING", WARNING); ("INFO", INFO);
    ("DEBUG", DEBUG); ("NOTSET", NOTSET) ].

Fixpoint assoc (key : string) (table : list (string * Z)) : option Z :=
  match table with
  | [] => None
  | (k, v) :: rest => if String.eqb key k then Some v else assoc key rest
  end.

(** [logging._checkLevel(level)] for a string [level]: the numeric level,
    or [None] where CPython raises [ValueError("Unknown level: %r" % level)]. *)
Definition _checkLevel (level : string) : option Z := assoc level _nameToLevel.

End Logging.

(** ** [mcp.types] *)

Module Types.

(** [types.LoggingLevel]: the eight syslog severities of the protocol. *)
Inductive LoggingLevel : Set :=
| debug | info | notice | warning | error | critical | alert | emergency.

(** A [LoggingLevel] is a string literal at run time. *)
Definition level_str (l : LoggingLevel) : string :=
  match l with
  | debug => "debug"
  | info => "info"
  | notice => "notice"
  | warning => "warning"
  | error => "error"
  | critical => "critical"
  | alert => "alert"
  | emergency => "emergency"
  end.

Record Tool : Type := mkTool {
  name : string;
  description : string;
  inputSchema : gmap string pyval
}.

Record TextContent : Set := mkTextContent {
  type : string;
  text : string
}.

Inductive EmptyResult : Set := mkEmptyResult.

End Types.
Export Types.

(** ** External collaborators *)

(** What the handlers call and do not implement: the Linkup client, the
    string form of its response, and the protocol session of the request in
    progress.  [Env] is the state these collaborators live in (network,
    provider, connection); a call returns a value or raises ([inl]). *)
Class Collaborators : Type := {
  Response : Type;
  Client : Type;
  Session : Type;
  ExtExc : Type;
  Env : Type;
  (** [LinkupClient()] *)
  LinkupClient_new : Env -> (ExtExc + Client) * Env;
  (** [client.search(query=..., depth=..., output_type=...)] *)
  Client_search :
    Client -> pyval -> pyval -> string -> Env -> (ExtExc + Response) * Env;
  (** [str(search_response)] *)
  py_str : Response -> string;
  (** [session.send_log_message(level=..., data=..., logger=...)] *)
  Session_send_log_message :
    Session -> string -> string -> string -> Env -> (ExtExc + unit) * Env
}.

(** A scripted provider, as a test double: its state is the list of answers
    still to be given, one per [search]; the client can always be built and
    the session accepts every message. *)
Definition scripted : Collaborators := {|
  Response := string;
  Client := unit;
  Session := nat;
  ExtExc := string;
  Env := list (string + string);
  LinkupClient_new := fun x => (inr tt, x);
  Client_search := fun _ _ _ _ x =>
    match x with
    | [] => (inl "script exhausted", [])
    | answer :: rest => (answer, rest)
    end;
  py_str := fun r => r;
  Session_send_log_message := fun _ _ _ _ x => (inr tt, x)
|}.

(** A deployment without credentials: [LinkupClient()] itself raises. *)
Definition unconfigured : Collaborators := {|
  Response := string;
  Client := unit;
  Session := nat;
  ExtExc := string;
  Env := unit;
  LinkupClient_new := fun x => (inl "no API key", x);
  Client_search := fun _ _ _ _ x => (inl "unreachable", x);
  py_str := fun r => r;
  Session_send_log_message := fun _ _ _ _ x => (inr tt, x)
|}.

Section Server.

Context {collab : Collaborators}.

(** *** Exceptions, effects, and the monad of handlers *)

Inductive exn : Type :=
| ValueError (msg : string)
    (** [raise ValueError(msg)] in server.py *)
| UnknownLevel (level : string)
    (** the [ValueError] of [logging._checkLevel], with the rejected name *)
| Foreign (e : ExtExc).
    (** an exception raised inside a collaborator, passing through *)

Inductive event : Type :=
| EvLinkupClient
| EvSearch (c : Client) (query depth : pyval) (output_type : string)
| EvSetLevel (n : Z)
| EvSendLogMessage (s : Session) (level data logger : string).

Record world : Type := mkWorld {
  ext : Env;
  logger_level : Z;
  trace : list event
}.

Inductive outcome (A : Type) : Type :=
| Ok (a : A)
| Raise (e : exn).
Arguments Ok {A} a.
Arguments Raise {A} e.

Definition M (A : Type) : Type := world -> outcome A * world.

Definition ret {A} (a : A) : M A := fun w => (Ok a, w).

Definition raise {A} (e : exn) : M A := fun w => (Raise e, w).

Definition bind {A B} (m : M A) (k : A -> M B) : M B :=
  fun w =>
    match m w with
    | (Ok a, w') => k a w'
    | (Raise e, w') => (Raise e, w')
    end.

Notation "'let*' x ':=' m 'in' k" := (bind m (fun x => k))
  (at level 10, x name, m at level 100, k at level 200, only parsing).
Notation "m ';;' k" := (bind m (fun _ => k))
  (at level 100, k at level 200, right associativity, only parsing).

(** Append an effect to the trace. *)
Definition emit (e : event) : M unit :=
  fun w => (Ok tt, mkWorld (ext w) (logger_level w) (trace w ++ [e])).

(** Run a collaborator on the external state; its exception, if any,
    passes through unchanged. *)
Definition call {A} (f : Env -> (ExtExc + A) * Env) : M A :=
  fun w =>
    match f (ext w) with
    | (inr a, x) => (Ok a, mkWorld x (logger_level w) (trace w))
    | (inl e, x) => (Raise (Foreign e), mkWorld x (logger_level w) (trace w))
    end.

(** [LinkupClient()] *)
Definition LinkupClient : M Client :=
  emit EvLinkupClient ;; call LinkupClient_new.

(** [client.search(query=query, depth=depth, output_type=output_type)] *)
Definition search (client : Client) (query depth : pyval)
    (output_type : string) : M Response :=
  emit (EvSearch client query depth output_type) ;;
  call (Client_search client query depth output_type).

(** [logger.setLevel(level)] with a string: [self.level = _checkLevel(level)]. *)
Definition Logger_setLevel (level : string) : M unit :=
  match Logging._checkLevel level with
  | None => raise (UnknownLevel level)
  | Some n =>
      (fun w => (Ok tt, mkWorld (ext w) n (trace w))) ;;
      emit (EvSetLevel n)
  end.

(** [server.request_context.session.send_log_message(...)] *)
Definition send_log_message (session : Session)
    (level data logger : string) : M unit :=
  emit (EvSendLogMessage session level data logger) ;;
  call (Session_send_log_message session level data logger).

(** The state of the process once the module is loaded (line 20:
    [logger.setLevel(logging.INFO)]). *)
Definition initial_world (x : Env) : world := mkWorld x Logging.INFO [].

(** *** The handlers *)

(** server.py, lines 23-31.  [session] is the session of the request
    context the handler runs in. *)
Definition set_logging_level (session : Session) (level : string)
    : M EmptyResult :=
  Logger_setLevel (upper level) ;;
  send_log_message session "info" ("Log level set to " +:+ level)
    "mcp-search-linkup" ;;
  ret mkEmptyResult.

(** server.py, lines 34-59. *)
Definition handle_list_tools : M (list Tool) :=
  ret [
    mkTool
      "search-web"
      "Search the web in real time using Linkup. Use this tool whenever the user needs trusted facts, news, or source-backed information. Returns comprehensive content from the most relevant sources."
      (<[ "type" := PStr "object" ]> (
       <[ "properties" := PDict (
            <[ "query" := PDict (
                 <[ "type" := PStr "string" ]> (
                 <[ "description" := PStr "Natural language search query. Full questions work best, e.g., 'How does the new EU AI Act affect startups?'" ]>
                 ∅)) ]> (
            <[ "depth" := PDict (
                 <[ "type" := PStr "string" ]> (
                 <[ "description" := PStr ("The search depth to perform. Use 'standard' for "
                      +:+ "queries with likely direct answers. Use 'deep' for complex queries "
                      +:+ "requiring comprehensive analysis or multi-hop questions") ]> (
                 <[ "enum" := PList [PStr "standard"; PStr "deep"] ]>
                 ∅))) ]>
            ∅)) ]> (
       <[ "required" := PList [PStr "query"; PStr "depth"] ]>
       ∅)))
  ].

(** [bool(arguments)] for [arguments : dict | None]: false for [None] and
    for the empty mapping, the two cases [if not arguments] catches. *)
Definition arguments_truthy (arguments : option (gmap string pyval)) : bool :=
  match arguments with
  | None => truthy PNone
  | Some d => truthy (PDict d)
  end.

(** server.py, lines 62-92.  [if not arguments] is the [None] branch and
    the emptiness test together; past it [arguments] is a mapping. *)
Definition handle_call_tool (name : string)
    (arguments : option (gmap string pyval)) : M (list TextContent) :=
  if negb (String.eqb name "search-web") then
    raise (ValueError ("Unknown tool: " +:+ name))
  else
  match arguments with
  | None => raise (ValueError "Missing arguments")
  | Some args =>
    if negb (truthy (PDict args)) then
      raise (ValueError "Missing arguments")
    else
    let query := dict_get args "query" in
    if negb (truthy query) then raise (ValueError "Missing query") else
    let depth := dict_get args "depth" in
    if negb (truthy depth) then raise (ValueError "Missing depth") else
    let* client := LinkupClient in
    let* search_response := search client query depth "searchResults" in
    ret [ mkTextContent "text" (py_str search_response) ]
  end.

(** *** Observations on a run *)

(** The effects a computation adds to the trace when run from [w]. *)
Definition emitted {A} (m : M A) (w : world) : list event :=
  drop (length (trace w)) (trace (snd (m w))).

(** The invocations of the provider's search operation in a trace, with
    their arguments. *)
Fixpoint search_calls (t : list event)
    : list (Client * pyval * pyval * string) :=
  match t with
  | [] => []
  | EvSearch c q d ot :: t' => (c, q, d, ot) :: search_calls t'
  | _ :: t' => search_calls t'
  end.

(** The messages sent to a protocol session in a trace. *)
Fixpoint log_messages (t : list event)
    : list (Session * string * string * string) :=
  match t with
  | [] => []
  | EvSendLogMessage s l d g :: t' => (s, l, d, g) :: log_messages t'
  | _ :: t' => log_messages t'
  end.

(** [arguments.get(key)] as the handler would read it; [None] when there
    is no mapping at all. *)
Definition arguments_get (arguments : option (gmap string pyval))
    (key : string) : pyval :=
  match arguments with
  | None => PNone
  | Some d => dict_get d key
  end.

(** The request is one the validation of [handle_call_tool] refuses. *)
Definition validation_fails (name : string)
    (arguments : option (gmap string pyval)) : Prop :=
  name <> "search-web"
  \/ arguments_truthy arguments = false
  \/ truthy (arguments_get arguments "query") = false
  \/ truthy (arguments_get arguments "depth") = false.

(** What the provider answers to [search(query, depth, "searchResults")]
    on a fresh client, from external state [x]. *)
Definition provider_answer (query depth : pyval) (x : Env)
    : ExtExc + Response :=
  match LinkupClient_new x with
  | (inl e, _) => inl e
  | (inr c, x') => fst (Client_search c query depth "searchResults" x')
  end.

(** *** Reading a JSON schema *)

(** The fields a schema declares: the keys of its "properties". *)
Definition schema_properties (schema : gmap string pyval)
    : gmap string pyval :=
  match schema !! "properties" with
  | Some (PDict props) => props
  | _ => ∅
  end.

(** What the schema says under [key] about the field [field]. *)
Definition field_attr (schema : gmap string pyval) (field key : string)
    : option pyval :=
  match schema_properties schema !! field with
  | Some (PDict decl) => decl !! key
  | _ => None
  end.

Fixpoint str_items (l : list pyval) : list string :=
  match l with
  | [] => []
  | PStr s :: l' => s :: str_items l'
  | _ :: l' => str_items l'
  end.

(** The set of field names under "required". *)
Definition schema_required (schema : gmap string pyval) : gset string :=
  match schema !! "required" with
  | Some (PList l) => list_to_set (str_items l)
  | _ => ∅
  end.

(** The tail of [handle_call_tool] (lines 80-92), run once validation has
    passed. *)
Definition forward (query depth : pyval) : M (list TextContent) :=
  let* client := LinkupClient in
  let* search_response := search client query depth "searchResults" in
  ret [ mkTextContent "text" (py_str search_response) ].

(** The confirmation [set_logging_level] sends for [level]. *)
Definition confirmation (session : Session) (level : string) : event :=
  EvSendLogMessage session "info" ("Log level set to " +:+ level)
    "mcp-search-linkup".

End Server.

Arguments Ok {collab A} a.
Arguments Raise {collab A} e.

(** ** Sample requests and worlds *)

(** [{"query": "q", "depth": "standard"}] *)
Definition sample_arguments : gmap string pyval :=
  <[ "query" := PStr "q" ]> (<[ "depth" := PStr "standard" ]> ∅).

(** A depth outside the advertised enum. *)
Definition sample_arguments_exhaustive : gmap string pyval :=
  <[ "query" := PStr "q" ]> (<[ "depth" := PStr "exhaustive" ]> ∅).

(** A query and a depth that are not strings. *)
Definition sample_arguments_untyped : gmap string pyval :=
  <[ "query" := PInt 7 ]> (<[ "depth" := PList [PBool false] ]> ∅).

(** [{"query": "other", "depth": "deep"}] *)
Definition sample_arguments_other : gmap string pyval :=
  <[ "query" := PStr "other" ]> (<[ "depth" := PStr "deep" ]> ∅).

(** The process just started, facing a provider scripted with [answers]. *)
Definition sample_world (answers : list (string + string))
    : @world scripted :=
  @initial_world scripted answers.

(** A protocol session of the scripted deployment. *)
Definition sample_session : @Session scripted := 0.

(** A request with extra entries the handler does not read. *)
Definition sample_arguments_extra : gmap string pyval :=
  <[ "output_type" := PStr "sourcedAnswer" ]> (
  <[ "limit" := PInt 3 ]> sample_arguments).

(** A deployment whose session is gone: [send_log_message] raises. *)
Definition disconnected : Collaborators := {|
  Response := string;
  Client := unit;
  Session := nat;
  ExtExc := string;
  Env := nat;
  LinkupClient_new := fun x => (inr tt, x);
  Client_search := fun _ _ _ _ x => (inr "R", S x);
  py_str := fun r => r;
  Session_send_log_message := fun _ _ _ _ x => (inl "closed", S x)
|}.

(** The scripted process after a level request and a search. *)
Definition sample_history : @world scripted :=
  snd (handle_call_tool "search-web" (Some sample_arguments)
         (snd (set_logging_level sample_session "error"
                 (sample_world [inr "R"])))).

(** ** Names within ASCII *)

(** [s.isascii()].  On such a string [upper] is [str.upper()] exactly; on a
    string with other characters Python consults the Unicode case tables,
    which [upper] does not follow, so statements that depend on the
    upper-cased form of an arbitrary name are made for ASCII names. *)
Fixpoint ascii_only (s : string) : bool :=
  match s with
  | EmptyString => true
  | String c s' => (N_of_ascii c <? 128)%N && ascii_only s'
  end.

(** ** The life of the process *)

Section History.

Context {collab : Collaborators}.

(** More observations on a trace: the clients built and the thresholds
    set. *)
Fixpoint client_constructions (t : list event) : nat :=
  match t with
  | [] => 0
  | EvLinkupClient :: t' => S (client_constructions t')
  | _ :: t' => client_constructions t'
  end.

Fixpoint level_changes (t : list event) : list Z :=
  match t with
  | [] => []
  | EvSetLevel n :: t' => n :: level_changes t'
  | _ :: t' => level_changes t'
  end.

(** The threshold a trace leaves the logger with, starting from [start]. *)
Definition last_level (start : Z) (t : list event) : Z :=
  List.last (level_changes t) start.

(** One thing that happens to the process: the session layer invokes one of
    the three handlers registered on [server] (lines 23, 34 and 62), or the
    outside world moves on its own.  A handler that raises leaves the
    process in the world it had reached. *)
Inductive step : world -> world -> Prop :=
| step_set_logging_level session level w :
    step w (snd (set_logging_level session level w))
| step_list_tools w :
    step w (snd (handle_list_tools w))
| step_call_tool name arguments w :
    step w (snd (handle_call_tool name arguments w))
| step_outside x w :
    step w (mkWorld x (logger_level w) (trace w)).

(** The worlds the process can be in, from the module being loaded. *)
Inductive reachable : world -> Prop :=
| reachable_initial x : reachable (initial_world x)
| reachable_step w w' : reachable w -> step w w' -> reachable w'.

(** What one handler invocation can add to the trace. *)
Inductive block : list event -> Prop :=
| block_client : block [EvLinkupClient]
| block_search c query depth :
    block [EvLinkupClient; EvSearch c query depth "searchResults"]
| block_level session level n :
    In n (map snd Logging._nameToLevel) ->
    (ascii_only level = true -> Logging._checkLevel (upper level) = Some n) ->
    block [EvSetLevel n; confirmation session level].

Inductive well_formed : list event -> Prop :=
| well_formed_nil : well_formed []
| well_formed_app t b : well_formed t -> block b -> well_formed (t ++ b).

End History.

(** ** The SSE endpoint (lines 94-117) *)

Module Starlette.

(** [starlette.responses.Response()], the empty response. *)
Inductive Response : Set := mkResponse.

End Starlette.

(** What [handle_sse] calls: the context manager [sse.connect_sse(...)]
    ([__aenter__] yields the two streams; [__aexit__] receives the exception
    of the block, if any, and answers whether to suppress it), and the MCP
    server ([create_initialization_options], [run]).  [Conn] is the state of
    the process and of the connection. *)
Class SseCollaborators : Type := {
  Conn : Type;
  Request : Type;
  Streams : Type;
  InitializationOptions : Type;
  SseExc : Type;
  connect_sse_aenter : Request -> Conn -> (SseExc + Streams) * Conn;
  connect_sse_aexit :
    Request -> option SseExc -> Conn -> (SseExc + bool) * Conn;
  create_initialization_options :
    Conn -> (SseExc + InitializationOptions) * Conn;
  Server_run :
    Streams -> InitializationOptions -> Conn -> (SseExc + unit) * Conn
}.

(** A transport whose behaviour is read off a script: whether the connection
    opens, whether the session loop fails, whether closing suppresses. *)
Definition scripted_sse (opens run_ok suppress : bool) : SseCollaborators := {|
  Conn := nat;
  Request := string;
  Streams := string;
  InitializationOptions := unit;
  SseExc := string;
  connect_sse_aenter := fun r x =>
    if opens then (inr r, S x) else (inl "refused", S x);
  connect_sse_aexit := fun _ _ x => (inr suppress, S x);
  create_initialization_options := fun x => (inr tt, x);
  Server_run := fun _ _ x =>
    if run_ok then (inr tt, S x) else (inl "session failed", S x)
|}.

Section Sse.

Context {sse : SseCollaborators}.

Inductive sse_event : Type :=
| SseEnter (request : Request)
| SseInitializationOptions
| SseRun (streams : Streams) (options : InitializationOptions)
| SseExit (request : Request) (exc : option SseExc).

(** The block of the [async with] (lines 104-108): the argument
    [create_initialization_options()] is evaluated, then [run] is awaited. *)
Definition handle_sse_block (streams : Streams) (x : Conn)
    : (SseExc + unit) * Conn * list sse_event :=
  match create_initialization_options x with
  | (inl e, x1) => (inl e, x1, [SseInitializationOptions])
  | (inr options, x1) =>
      let '(r, x2) := Server_run streams options x1 in
      (r, x2, [SseInitializationOptions; SseRun streams options])
  end.

(** [handle_sse] (lines 98-109).  [async with]: enter; run the block; exit
    with the block's exception or with none; an exception of exit itself
    propagates; otherwise the block's exception is raised again unless exit
    answered true; [return Response()] comes last. *)
Definition handle_sse (request : Request) (x : Conn)
    : (SseExc + Starlette.Response) * Conn * list sse_event :=
  match connect_sse_aenter request x with
  | (inl e, x1) => (inl e, x1, [SseEnter request])
  | (inr streams, x1) =>
      let '(body, x2, evs) := handle_sse_block streams x1 in
      let exc := match body with inl e => Some e | inr _ => None end in
      let t := SseEnter request :: evs ++ [SseExit request exc] in
      match connect_sse_aexit request exc x2 with
      | (inl e', x3) => (inl e', x3, t)
      | (inr suppress, x3) =>
          match body with
          | inr _ => (inr Starlette.mkResponse, x3, t)
          | inl e =>
              if suppress then (inr Starlette.mkResponse, x3, t)
              else (inl e, x3, t)
          end
      end
  end.

Fixpoint sse_exits (t : list sse_event) : list (option SseExc) :=
  match t with
  | [] => []
  | SseExit _ exc :: t' => exc :: sse_exits t'
  | _ :: t' => sse_exits t'
  end.

Fixpoint sse_runs (t : list sse_event)
    : list (Streams * InitializationOptions) :=
  match t with
  | [] => []
  | SseRun st o :: t' => (st, o) :: sse_runs t'
  | _ :: t' => sse_runs t'
  end.

End Sse.

(** * Properties *)

Section Properties.

Context {collab : Collaborators}.

(** *** Basic facts *)

Lemma drop_own_length {A} (l l' : list A) : drop (length l) (l ++ l') = l'.
Proof. induction l as [|a l IH]; simpl; auto. Qed.

Lemma emitted_unchanged {A} (m : M A) w : snd (m w) = w -> emitted m w = [].
Proof.
  intros E. unfold emitted. rewrite E.
  rewrite <- (app_nil_r (trace w)) at 2. apply drop_own_length.
Qed.

Lemma emitted_app {A} (m : M A) w evs :
  trace (snd (m w)) = trace w ++ evs -> emitted m w = evs.
Proof. intros E. unfold emitted. rewrite E. apply drop_own_length. Qed.

(** A mapping with an entry is a non-empty mapping. *)
Lemma truthy_dict_lookup (d : gmap string pyval) k v :
  d !! k = Some v -> truthy (PDict d) = true.
Proof.
  intros Hk. simpl. destruct (Nat.eqb_spec (size d) 0) as [E|E]; [|reflexivity].
  apply map_size_empty_inv in E. subst d. rewrite lookup_empty in Hk.
  discriminate.
Qed.

Lemma dict_get_lookup (d : gmap string pyval) k v :
  d !! k = Some v -> dict_get d k = v.
Proof. intros E. unfold dict_get. now rewrite E. Qed.

(** A truthy [d.get(k)] is a stored value. *)
Lemma dict_get_truthy (d : gmap string pyval) k :
  truthy (dict_get d k) = true -> d !! k = Some (dict_get d k).
Proof. unfold dict_get. destruct (d !! k); [reflexivity | discriminate]. Qed.

(** *** The provider call (lines 80-85) *)

Lemma handle_call_tool_validated (args : gmap string pyval) q d w :
  args !! "query" = Some q -> truthy q = true ->
  args !! "depth" = Some d -> truthy d = true ->
  handle_call_tool "search-web" (Some args) w = forward q d w.
Proof.
  intros Hq Tq Hd Td. unfold handle_call_tool.
  rewrite (truthy_dict_lookup _ _ _ Hq).
  rewrite (dict_get_lookup _ _ _ Hq), (dict_get_lookup _ _ _ Hd), Tq, Td.
  reflexivity.
Qed.

Lemma forward_answered q d c r x1 x2 w :
  LinkupClient_new (ext w) = (inr c, x1) ->
  Client_search c q d "searchResults" x1 = (inr r, x2) ->
  forward q d w =
    (Ok [ mkTextContent "text" (py_str r) ],
     mkWorld x2 (logger_level w)
       (trace w ++ [EvLinkupClient; EvSearch c q d "searchResults"])).
Proof.
  intros Hc Hs. unfold forward, LinkupClient, search, bind, emit, call, ret.
  simpl. rewrite Hc. simpl. rewrite Hs. simpl.
  now rewrite <- app_assoc.
Qed.

Lemma forward_search_raises q d c e x1 x2 w :
  LinkupClient_new (ext w) = (inr c, x1) ->
  Client_search c q d "searchResults" x1 = (inl e, x2) ->
  forward q d w =
    (Raise (Foreign e),
     mkWorld x2 (logger_level w)
       (trace w ++ [EvLinkupClient; EvSearch c q d "searchResults"])).
Proof.
  intros Hc Hs. unfold forward, LinkupClient, search, bind, emit, call, ret.
  simpl. rewrite Hc. simpl. rewrite Hs. simpl.
  now rewrite <- app_assoc.
Qed.

Lemma forward_client_raises q d e x1 w :
  LinkupClient_new (ext w) = (inl e, x1) ->
  forward q d w =
    (Raise (Foreign e),
     mkWorld x1 (logger_level w) (trace w ++ [EvLinkupClient])).
Proof.
  intros Hc. unfold forward, LinkupClient, search, bind, emit, call, ret.
  simpl. now rewrite Hc.
Qed.

(** Whatever the provider does, the forwarding step starts by building a
    client, and never raises a [ValueError] of the handler. *)
Lemma forward_begins q d w :
  exists evs, emitted (forward q d) w = EvLinkupClient :: evs.
Proof.
  destruct (LinkupClient_new (ext w)) as [[e|c] x1] eqn:Hc.
  - exists []. apply emitted_app. now rewrite (forward_client_raises _ _ _ _ _ Hc).
  - destruct (Client_search c q d "searchResults" x1) as [[e|r] x2] eqn:Hs;
      exists [EvSearch c q d "searchResults"]; apply emitted_app.
    + now rewrite (forward_search_raises _ _ _ _ _ _ _ Hc Hs).
    + now rewrite (forward_answered _ _ _ _ _ _ _ Hc Hs).
Qed.

Lemma forward_no_ValueError q d w msg :
  fst (forward q d w) <> Raise (ValueError msg).
Proof.
  destruct (LinkupClient_new (ext w)) as [[e|c] x1] eqn:Hc.
  - now rewrite (forward_client_raises _ _ _ _ _ Hc).
  - destruct (Client_search c q d "searchResults" x1) as [[e|r] x2] eqn:Hs.
    + now rewrite (forward_search_raises _ _ _ _ _ _ _ Hc Hs).
    + now rewrite (forward_answered _ _ _ _ _ _ _ Hc Hs).
Qed.

(** The result of the forwarding step is a function of the provider's
    answer alone. *)
Lemma forward_result q d w :
  fst (forward q d w) =
    match provider_answer q d (ext w) with
    | inl e => Raise (Foreign e)
    | inr r => Ok [ mkTextContent "text" (py_str r) ]
    end.
Proof.
  unfold provider_answer.
  destruct (LinkupClient_new (ext w)) as [[e|c] x1] eqn:Hc.
  - now rewrite (forward_client_raises _ _ _ _ _ Hc).
  - destruct (Client_search c q d "searchResults" x1) as [[e|r] x2] eqn:Hs.
    + now rewrite (forward_search_raises _ _ _ _ _ _ _ Hc Hs).
    + now rewrite (forward_answered _ _ _ _ _ _ _ Hc Hs).
Qed.

(** *** Validation (lines 68-78) *)

(** The four refusals, in the order the handler tests them; each leaves the
    world as it was. *)
Lemma refuse_name name arguments w :
  name <> "search-web" ->
  handle_call_tool name arguments w =
    (Raise (ValueError ("Unknown tool: " +:+ name)), w).
Proof.
  intros Hn. unfold handle_call_tool.
  destruct (String.eqb_spec name "search-web"); [contradiction | reflexivity].
Qed.

Lemma refuse_arguments arguments w :
  arguments_truthy arguments = false ->
  handle_call_tool "search-web" arguments w =
    (Raise (ValueError "Missing arguments"), w).
Proof.
  intros Ha. unfold handle_call_tool. simpl.
  destruct arguments as [args|]; [|reflexivity].
  simpl in Ha. simpl. now rewrite Ha.
Qed.

Lemma refuse_query arguments w :
  arguments_truthy arguments = true ->
  truthy (arguments_get arguments "query") = false ->
  handle_call_tool "search-web" arguments w =
    (Raise (ValueError "Missing query"), w).
Proof.
  intros Ha Hq. unfold handle_call_tool. simpl.
  destruct arguments as [args|]; [|discriminate].
  simpl in Ha, Hq. simpl. now rewrite Ha, Hq.
Qed.

Lemma refuse_depth arguments w :
  arguments_truthy arguments = true ->
  truthy (arguments_get arguments "query") = true ->
  truthy (arguments_get arguments "depth") = false ->
  handle_call_tool "search-web" arguments w =
    (Raise (ValueError "Missing depth"), w).
Proof.
  intros Ha Hq Hd. unfold handle_call_tool. simpl.
  destruct arguments as [args|]; [|discriminate].
  simpl in Ha, Hq, Hd. simpl. now rewrite Ha, Hq, Hd.
Qed.

Lemma accept arguments w :
  arguments_truthy arguments = true ->
  truthy (arguments_get arguments "query") = true ->
  truthy (arguments_get arguments "depth") = true ->
  handle_call_tool "search-web" arguments w =
    forward (arguments_get arguments "query")
            (arguments_get arguments "depth") w.
Proof.
  intros Ha Hq Hd. destruct arguments as [args|]; [|discriminate].
  simpl in *.
  apply handle_call_tool_validated; auto using dict_get_truthy.
Qed.

Lemma validation_fails_refused name arguments w :
  validation_fails name arguments ->
  exists msg, handle_call_tool name arguments w = (Raise (ValueError msg), w).
Proof.
  intros Hv.
  destruct (String.eqb_spec name "search-web") as [->|Hn];
    [| eexists; now apply refuse_name].
  destruct (arguments_truthy arguments) eqn:Ha;
    [| eexists; now apply refuse_arguments].
  destruct (truthy (arguments_get arguments "query")) eqn:Hq;
    [| eexists; now apply refuse_query].
  destruct (truthy (arguments_get arguments "depth")) eqn:Hd;
    [| eexists; now apply refuse_depth].
  destruct Hv as [Hv|[Hv|[Hv|Hv]]]; congruence.
Qed.

(** *** The tool invoker *)

(** C1.  A call of [handle_call_tool "search-web"] whose arguments hold a
    truthy (non-empty) query and depth, with a provider that answers [r]:
    the provider's search operation is invoked exactly once, with that query,
    that depth and the output type "searchResults", and the handler returns
    the one-element list holding the text item whose text is [str(r)]. *)
Theorem handle_call_tool_passes_through
    (args : gmap string pyval) q d c r x1 x2 w :
  args !! "query" = Some q -> truthy q = true ->
  args !! "depth" = Some d -> truthy d = true ->
  LinkupClient_new (ext w) = (inr c, x1) ->
  Client_search c q d "searchResults" x1 = (inr r, x2) ->
  search_calls (emitted (handle_call_tool "search-web" (Some args)) w)
    = [(c, q, d, "searchResults")]
  /\ fst (handle_call_tool "search-web" (Some args) w)
    = Ok [ mkTextContent "text" (py_str r) ].
Proof.
  intros Hq Tq Hd Td Hc Hs.
  assert (E : handle_call_tool "search-web" (Some args) w =
              (Ok [ mkTextContent "text" (py_str r) ],
               mkWorld x2 (logger_level w)
                 (trace w ++ [EvLinkupClient; EvSearch c q d "searchResults"]))).
  { rewrite handle_call_tool_validated with (q := q) (d := d) by assumption.
    now apply forward_answered with (x1 := x1). }
  split.
  - rewrite (emitted_app _ w [EvLinkupClient; EvSearch c q d "searchResults"]).
    + reflexivity.
    + now rewrite E.
  - now rewrite E.
Qed.

(** C2.  The validation checks of [handle_call_tool] come in a fixed order,
    each with its own failure: a name other than "search-web" fails with an
    error carrying the name, whatever the arguments; then absent or empty
    arguments fail with "Missing arguments"; then a falsy query fails with
    "Missing query", whatever the depth; then a falsy depth fails with
    "Missing depth".  The four errors are pairwise different. *)
Theorem validation_order name arguments w :
  (name <> "search-web" ->
     fst (handle_call_tool name arguments w)
       = Raise (ValueError ("Unknown tool: " +:+ name)))
  /\ (name = "search-web" ->
      arguments_truthy arguments = false ->
      fst (handle_call_tool name arguments w)
        = Raise (ValueError "Missing arguments"))
  /\ (name = "search-web" ->
      arguments_truthy arguments = true ->
      truthy (arguments_get arguments "query") = false ->
      fst (handle_call_tool name arguments w)
        = Raise (ValueError "Missing query"))
  /\ (name = "search-web" ->
      arguments_truthy arguments = true ->
      truthy (arguments_get arguments "query") = true ->
      truthy (arguments_get arguments "depth") = false ->
      fst (handle_call_tool name arguments w)
        = Raise (ValueError "Missing depth"))
  /\ NoDup [ "Unknown tool: " +:+ name; "Missing arguments";
             "Missing query"; "Missing depth" ].
Proof.
  repeat split.
  - intros Hn. now rewrite refuse_name.
  - intros -> Ha. now rewrite refuse_arguments.
  - intros -> Ha Hq. now rewrite refuse_query.
  - intros -> Ha Hq Hd. now rewrite refuse_depth.
  - simpl. rewrite !NoDup_cons, !elem_of_cons, !elem_of_nil.
    repeat split; try apply NoDup_nil_2; intros H;
      decompose [or] H; discriminate || assumption.
Qed.

(** C4.  When validation fails (wrong name, absent or empty arguments, falsy
    query or falsy depth), the handler raises its error with the world
    exactly as it was: no client was built, no search was invoked, nothing
    was sent and the logger was not touched. *)
Theorem validation_failure_is_atomic name arguments w :
  validation_fails name arguments ->
  snd (handle_call_tool name arguments w) = w
  /\ emitted (handle_call_tool name arguments) w = []
  /\ exists msg,
       fst (handle_call_tool name arguments w) = Raise (ValueError msg).
Proof.
  intros Hv. destruct (validation_fails_refused name arguments w Hv) as [msg E].
  assert (S : snd (handle_call_tool name arguments w) = w) by now rewrite E.
  split; [exact S|]. split.
  - now apply emitted_unchanged.
  - exists msg. now rewrite E.
Qed.

(** C5.  Any non-empty string passes as depth, inside the advertised enum or
    not: the handler raises no validation error for it and, once the client
    is built, hands that very string to the provider's search. *)
Theorem depth_is_not_checked_against_enum
    (args : gmap string pyval) q (s : string) w :
  args !! "query" = Some q -> truthy q = true ->
  args !! "depth" = Some (PStr s) -> s <> "" ->
  (forall msg,
     fst (handle_call_tool "search-web" (Some args) w)
       <> Raise (ValueError msg))
  /\ (forall c x1,
        LinkupClient_new (ext w) = (inr c, x1) ->
        search_calls (emitted (handle_call_tool "search-web" (Some args)) w)
          = [(c, q, PStr s, "searchResults")]).
Proof.
  intros Hq Tq Hd Hs.
  assert (Td : truthy (PStr s) = true).
  { simpl. destruct (String.eqb_spec s ""); [contradiction | reflexivity]. }
  pose proof (handle_call_tool_validated args q (PStr s) w Hq Tq Hd Td) as E.
  split.
  - intros msg. rewrite E. apply forward_no_ValueError.
  - intros c x1 Hc.
    destruct (Client_search c q (PStr s) "searchResults" x1)
      as [[e|r] x2] eqn:Hsr.
    + rewrite (emitted_app _ w
         [EvLinkupClient; EvSearch c q (PStr s) "searchResults"]);
        [reflexivity|].
      now rewrite E, (forward_search_raises _ _ _ _ _ _ _ Hc Hsr).
    + rewrite (emitted_app _ w
         [EvLinkupClient; EvSearch c q (PStr s) "searchResults"]);
        [reflexivity|].
      now rewrite E, (forward_answered _ _ _ _ _ _ _ Hc Hsr).
Qed.

(** C6.  When the provider's search raises [e], the handler raises that same
    [e]: it is not caught or turned into another error; the search was
    invoked once and not again; the handler keeps nothing of the failure (the
    world after the call is the provider's own state after it, with the
    logger untouched), and a further identical call goes to the provider
    again. *)
Theorem provider_failure_propagates
    (args : gmap string pyval) q d c e x1 x2 w :
  args !! "query" = Some q -> truthy q = true ->
  args !! "depth" = Some d -> truthy d = true ->
  LinkupClient_new (ext w) = (inr c, x1) ->
  Client_search c q d "searchResults" x1 = (inl e, x2) ->
  let run := handle_call_tool "search-web" (Some args) in
  fst (run w) = Raise (Foreign e)
  /\ search_calls (emitted run w) = [(c, q, d, "searchResults")]
  /\ ext (snd (run w)) = x2
  /\ logger_level (snd (run w)) = logger_level w
  /\ exists evs, emitted run (snd (run w)) = EvLinkupClient :: evs.
Proof.
  intros Hq Tq Hd Td Hc Hs run.
  assert (E : run w =
              (Raise (Foreign e),
               mkWorld x2 (logger_level w)
                 (trace w ++ [EvLinkupClient; EvSearch c q d "searchResults"]))).
  { unfold run.
    rewrite handle_call_tool_validated with (q := q) (d := d) by assumption.
    now apply forward_search_raises with (x1 := x1). }
  repeat split; try now rewrite E.
  - rewrite (emitted_app _ w [EvLinkupClient; EvSearch c q d "searchResults"]).
    + reflexivity.
    + now rewrite E.
  - destruct (forward_begins q d (snd (run w))) as [evs Hevs].
    exists evs. rewrite <- Hevs. unfold emitted, run.
    now rewrite !(handle_call_tool_validated args q d) by assumption.
Qed.

(** C8.  The result of [handle_call_tool] is a function of its own name and
    arguments and of the provider's answer to that call: neither the logger
    threshold nor the trace of earlier calls (of any session) enters it.  The
    handler has no suspension point, so two sessions' calls run one after the
    other; when the provider answers [r1] to the first and [r2] to the
    second, the first caller receives the text of [r1] and the second the
    text of [r2]. *)
Theorem call_results_are_isolated name arguments :
  (forall w1 w2,
     provider_answer (arguments_get arguments "query")
                     (arguments_get arguments "depth") (ext w1)
     = provider_answer (arguments_get arguments "query")
                       (arguments_get arguments "depth") (ext w2) ->
     fst (handle_call_tool name arguments w1)
     = fst (handle_call_tool name arguments w2))
  /\ (forall (args1 args2 : gmap string pyval) q1 d1 q2 d2 c1 c2 r1 r2
             x1 x2 x3 x4 w,
        args1 !! "query" = Some q1 -> truthy q1 = true ->
        args1 !! "depth" = Some d1 -> truthy d1 = true ->
        args2 !! "query" = Some q2 -> truthy q2 = true ->
        args2 !! "depth" = Some d2 -> truthy d2 = true ->
        q1 <> q2 ->
        LinkupClient_new (ext w) = (inr c1, x1) ->
        Client_search c1 q1 d1 "searchResults" x1 = (inr r1, x2) ->
        LinkupClient_new x2 = (inr c2, x3) ->
        Client_search c2 q2 d2 "searchResults" x3 = (inr r2, x4) ->
        let first := handle_call_tool "search-web" (Some args1) w in
        let second := handle_call_tool "search-web" (Some args2) (snd first) in
        fst first = Ok [ mkTextContent "text" (py_str r1) ]
        /\ fst second = Ok [ mkTextContent "text" (py_str r2) ]).
Proof.
  split.
  - intros w1 w2 Hp.
    destruct (String.eqb_spec name "search-web") as [->|Hn];
      [| now rewrite !refuse_name].
    destruct (arguments_truthy arguments) eqn:Ha;
      [| now rewrite !refuse_arguments].
    destruct (truthy (arguments_get arguments "query")) eqn:Hq;
      [| now rewrite !refuse_query].
    destruct (truthy (arguments_get arguments "depth")) eqn:Hd;
      [| now rewrite !refuse_depth].
    rewrite !accept by assumption. rewrite !forward_result. now rewrite Hp.
  - intros args1 args2 q1 d1 q2 d2 c1 c2 r1 r2 x1 x2 x3 x4 w
      Hq1 Tq1 Hd1 Td1 Hq2 Tq2 Hd2 Td2 Hne Hc1 Hs1 Hc2 Hs2 first second.
    assert (E1 : first =
                 (Ok [ mkTextContent "text" (py_str r1) ],
                  mkWorld x2 (logger_level w)
                    (trace w ++
                       [EvLinkupClient; EvSearch c1 q1 d1 "searchResults"]))).
    { unfold first.
      rewrite handle_call_tool_validated with (q := q1) (d := d1)
        by assumption.
      now apply forward_answered with (x1 := x1). }
    split; [now rewrite E1|].
    unfold second. rewrite E1. simpl snd.
    rewrite handle_call_tool_validated with (q := q2) (d := d2) by assumption.
    now rewrite (forward_answered q2 d2 c2 r2 x3 x4).
Qed.

(** C9.  [handle_call_tool] raises one of its validation errors exactly when
    the name is not "search-web" or one of arguments, arguments.get("query"),
    arguments.get("depth") is falsy; the test is truthiness and nothing else,
    so a truthy query and depth of any type (a number, a list) pass and reach
    the provider's search as they are. *)
Theorem validation_is_truthiness name arguments w :
  ((exists msg,
      fst (handle_call_tool name arguments w) = Raise (ValueError msg))
   <-> validation_fails name arguments)
  /\ (forall (args : gmap string pyval) q d c x1,
        name = "search-web" -> arguments = Some args ->
        args !! "query" = Some q -> truthy q = true ->
        args !! "depth" = Some d -> truthy d = true ->
        LinkupClient_new (ext w) = (inr c, x1) ->
        search_calls (emitted (handle_call_tool name arguments) w)
          = [(c, q, d, "searchResults")]).
Proof.
  split.
  - split.
    + intros [msg E].
      destruct (String.eqb_spec name "search-web") as [->|Hn];
        [| now left].
      destruct (arguments_truthy arguments) eqn:Ha; [| now right; left].
      destruct (truthy (arguments_get arguments "query")) eqn:Hq;
        [| now right; right; left].
      destruct (truthy (arguments_get arguments "depth")) eqn:Hd;
        [| now right; right; right].
      rewrite accept in E by assumption.
      now apply forward_no_ValueError in E.
    + intros Hv. destruct (validation_fails_refused name arguments w Hv)
        as [msg E]. exists msg. now rewrite E.
  - intros args q d c x1 -> -> Hq Tq Hd Td Hc.
    pose proof (handle_call_tool_validated args q d w Hq Tq Hd Td) as E.
    rewrite (emitted_app _ w [EvLinkupClient; EvSearch c q d "searchResults"]);
      [reflexivity|].
    rewrite E.
    destruct (Client_search c q d "searchResults" x1) as [[e|r] x2] eqn:Hs.
    + now rewrite (forward_search_raises _ _ _ _ _ _ _ Hc Hs).
    + now rewrite (forward_answered _ _ _ _ _ _ _ Hc Hs).
Qed.

(** *** The tool catalog *)

(** C3.  [handle_list_tools] returns, from every world and leaving it as it
    was, the same one-element list: the descriptor named "search-web", whose
    input schema declares exactly the fields query (a string, no enum) and
    depth (a string with enum ["standard", "deep"]) and requires exactly
    query and depth. *)
Theorem handle_list_tools_is_constant :
  exists tool : Tool,
    (forall w, handle_list_tools w = (Ok [tool], w))
    /\ name tool = "search-web"
    /\ inputSchema tool !! "type" = Some (PStr "object")
    /\ dom (schema_properties (inputSchema tool)) = {[ "query"; "depth" ]}
    /\ field_attr (inputSchema tool) "query" "type" = Some (PStr "string")
    /\ field_attr (inputSchema tool) "query" "enum" = None
    /\ field_attr (inputSchema tool) "depth" "type" = Some (PStr "string")
    /\ field_attr (inputSchema tool) "depth" "enum"
       = Some (PList [PStr "standard"; PStr "deep"])
    /\ schema_required (inputSchema tool) = {[ "query"; "depth" ]}.
Proof.
  eexists. split; [intros w; reflexivity|].
  repeat split; try (vm_compute; reflexivity).
Qed.

(** *** The logging-level handler *)

(** A level name the logger does not know: [setLevel] raises, and the
    handler stops there. *)
Lemma set_logging_level_unknown session level w :
  Logging._checkLevel (upper level) = None ->
  set_logging_level session level w = (Raise (UnknownLevel (upper level)), w).
Proof.
  intros E. unfold set_logging_level, Logger_setLevel, bind.
  now rewrite E.
Qed.

(** A level name the logger knows: the threshold is set, then the
    confirmation goes to the session, whose answer decides the result. *)
Lemma set_logging_level_known session level n w :
  Logging._checkLevel (upper level) = Some n ->
  set_logging_level session level w =
    let w' x := mkWorld x n
                  (trace w ++ [EvSetLevel n; confirmation session level]) in
    match Session_send_log_message session "info"
            ("Log level set to " +:+ level) "mcp-search-linkup" (ext w) with
    | (inr _, x) => (Ok mkEmptyResult, w' x)
    | (inl e, x) => (Raise (Foreign e), w' x)
    end.
Proof.
  intros E.
  unfold set_logging_level, Logger_setLevel, send_log_message, confirmation,
    bind, emit, call, ret.
  rewrite E. simpl.
  destruct (Session_send_log_message _ _ _ _ (ext w)) as [[e|[]] x];
    simpl; now rewrite <- app_assoc.
Qed.

(** The protocol levels the logger has no name for. *)
Lemma levels_unknown_to_logging (l : LoggingLevel) :
  Logging._checkLevel (upper (level_str l)) = None
  <-> l = notice \/ l = alert \/ l = emergency.
Proof.
  split.
  - destruct l; vm_compute; intros H; try discriminate H; auto.
  - intros [->|[->| ->]]; reflexivity.
Qed.

(** For the five levels Python's logging names too, and a session that takes
    the message, the handler does what is expected of it. *)
Lemma set_logging_level_supported session (l : LoggingLevel) n x w :
  Logging._checkLevel (upper (level_str l)) = Some n ->
  Session_send_log_message session "info"
    ("Log level set to " +:+ level_str l) "mcp-search-linkup" (ext w)
    = (inr tt, x) ->
  let run := set_logging_level session (level_str l) in
  fst (run w) = Ok mkEmptyResult
  /\ logger_level (snd (run w)) = n
  /\ log_messages (emitted run w)
     = [(session, "info", "Log level set to " +:+ level_str l,
         "mcp-search-linkup")].
Proof.
  intros E Hs run.
  assert (R : run w = (Ok mkEmptyResult,
                       mkWorld x n (trace w ++ [EvSetLevel n;
                                      confirmation session (level_str l)]))).
  { unfold run. rewrite (set_logging_level_known _ _ _ _ E).
    cbv zeta. now rewrite Hs. }
  split; [now rewrite R|]. split; [now rewrite R|].
  rewrite (emitted_app run w
             [EvSetLevel n; confirmation session (level_str l)]);
    [reflexivity | now rewrite R].
Qed.

(** C7.  The claim is that every requested level is applied, confirmed and
    acknowledged.  The protocol levels "notice", "alert" and "emergency" are
    not level names of Python's logging: [logger.setLevel("NOTICE")] raises,
    so for them the handler neither updates the threshold, nor sends the
    confirmation, nor returns its empty result. *)
Theorem set_logging_level_rejects_notice session w :
  level_str notice = "notice"
  /\ set_logging_level session "notice" w = (Raise (UnknownLevel "NOTICE"), w)
  /\ log_messages (emitted (set_logging_level session "notice") w) = []
  /\ Forall (fun l =>
               set_logging_level session (level_str l) w
               = (Raise (UnknownLevel (upper (level_str l))), w))
            [notice; alert; emergency].
Proof.
  assert (E : forall l, l = notice \/ l = alert \/ l = emergency ->
              set_logging_level session (level_str l) w
              = (Raise (UnknownLevel (upper (level_str l))), w)).
  { intros l Hl. apply set_logging_level_unknown.
    now apply levels_unknown_to_logging. }
  split; [reflexivity|].
  split; [apply (E notice); auto|].
  split.
  - rewrite emitted_unchanged; [reflexivity|].
    change "notice" with (level_str notice). rewrite (E notice); auto.
  - repeat constructor; apply E; auto.
Qed.

(** For a level whose upper-cased name the logger knows as [n]: the
    threshold becomes [n], and so it does for any other spelling of the name
    that differs only in case; the threshold is set first and the single
    confirmation is sent after it, to the protocol session, carrying the
    level as it was requested; it is sent also when [n] is above INFO. *)
Theorem set_logging_level_upper_then_confirm session level n w :
  Logging._checkLevel (upper level) = Some n ->
  let run := set_logging_level session level in
  logger_level (snd (run w)) = n
  /\ (forall level',
        upper level' = upper level ->
        logger_level (snd (set_logging_level session level' w)) = n)
  /\ emitted run w = [EvSetLevel n; confirmation session level]
  /\ (Logging.INFO < n ->
      log_messages (emitted run w)
      = [(session, "info", "Log level set to " +:+ level,
          "mcp-search-linkup")])%Z.
Proof.
  intros E run.
  assert (L : forall level',
             upper level' = upper level ->
             logger_level (snd (set_logging_level session level' w)) = n
             /\ emitted (set_logging_level session level') w
                = [EvSetLevel n; confirmation session level']).
  { intros level' U. rewrite <- U in E.
    pose proof (set_logging_level_known session level' n w E) as K.
    cbv zeta in K.
    destruct (Session_send_log_message _ _ _ _ (ext w)) as [[e|u] x];
      (split; [now rewrite K | apply emitted_app; now rewrite K]). }
  destruct (L level eq_refl) as [L1 L2].
  split; [exact L1|]. split; [intros level' U; now apply L|].
  split; [exact L2|].
  intros _. unfold run. now rewrite L2.
Qed.

(** C10.  The claim is that the level is upper-cased and applied, and that
    the confirmation then goes out through the session even when the new
    threshold is above the informational level.  For the protocol levels
    above info that Python's logging has no name for ("notice", "alert",
    "emergency") the handler does upper-case the name, but
    [logger.setLevel] raises on it: no threshold is set and the confirmation
    is never sent.  This is the defect of C7 seen from the confirmation. *)
Theorem set_logging_level_above_info_unconfirmed session w :
  set_logging_level session "alert" w = (Raise (UnknownLevel "ALERT"), w)
  /\ level_changes (emitted (set_logging_level session "alert") w) = []
  /\ log_messages (emitted (set_logging_level session "alert") w) = []
  /\ Forall (fun l =>
               fst (set_logging_level session (level_str l) w)
               = Raise (UnknownLevel (upper (level_str l)))
               /\ emitted (set_logging_level session (level_str l)) w = [])
            [notice; alert; emergency].
Proof.
  assert (E : forall l, l = notice \/ l = alert \/ l = emergency ->
              set_logging_level session (level_str l) w
              = (Raise (UnknownLevel (upper (level_str l))), w)).
  { intros l Hl. apply set_logging_level_unknown.
    now apply levels_unknown_to_logging. }
  assert (N : forall l, l = notice \/ l = alert \/ l = emergency ->
              emitted (set_logging_level session (level_str l)) w = []).
  { intros l Hl. apply emitted_unchanged. now rewrite (E l Hl). }
  split; [apply (E alert); auto|].
  change "alert" with (level_str alert).
  rewrite (N alert) by auto.
  split; [reflexivity|]. split; [reflexivity|].
  repeat constructor; try (rewrite E; auto; reflexivity); apply N; auto.
Qed.

End Properties.

(** * The properties on a scripted provider *)

Lemma handle_call_tool_passes_through_witness :
  let w := sample_world [inr "R"] in
  sample_arguments !! "query" = Some (PStr "q")
  /\ sample_arguments !! "depth" = Some (PStr "standard")
  /\ search_calls (emitted (handle_call_tool "search-web"
                              (Some sample_arguments)) w)
     = [(tt, PStr "q", PStr "standard", "searchResults")]
  /\ fst (handle_call_tool "search-web" (Some sample_arguments) w)
     = Ok [ mkTextContent "text" "R" ].
Proof.
  intros w.
  split; [reflexivity|]. split; [reflexivity|].
  apply (@handle_call_tool_passes_through scripted sample_arguments
           (PStr "q") (PStr "standard") tt "R" [inr "R"] [] w);
    reflexivity.
Defined.

Lemma validation_order_witness :
  let w := sample_world [inr "R"] in
  fst (handle_call_tool "unknown-tool" (Some sample_arguments) w)
    = Raise (ValueError "Unknown tool: unknown-tool")
  /\ fst (handle_call_tool "search-web" None w)
    = Raise (ValueError "Missing arguments")
  /\ fst (handle_call_tool "search-web"
            (Some (<[ "depth" := PStr "standard" ]> ∅)) w)
    = Raise (ValueError "Missing query")
  /\ fst (handle_call_tool "search-web" (Some (<[ "query" := PStr "q" ]> ∅)) w)
    = Raise (ValueError "Missing depth").
Proof.
  intros w. split; [|split; [|split]].
  - apply (@validation_order scripted "unknown-tool"
             (Some sample_arguments) w). discriminate.
  - apply (@validation_order scripted "search-web" None w); reflexivity.
  - apply (@validation_order scripted "search-web"
             (Some (<[ "depth" := PStr "standard" ]> ∅)) w); reflexivity.
  - apply (@validation_order scripted "search-web"
             (Some (<[ "query" := PStr "q" ]> ∅)) w); reflexivity.
Defined.

Lemma validation_failure_is_atomic_witness :
  let w := sample_world [inr "R"] in
  let arguments := Some (<[ "query" := PStr "q" ]> ∅) in
  validation_fails "search-web" arguments
  /\ snd (handle_call_tool "search-web" arguments w) = w
  /\ emitted (handle_call_tool "search-web" arguments) w = [].
Proof.
  intros w arguments.
  assert (Hv : validation_fails "search-web" arguments)
    by (right; right; right; reflexivity).
  split; [exact Hv|].
  destruct (@validation_failure_is_atomic scripted "search-web" arguments w Hv)
    as (Hw & He & _).
  split; [exact Hw | exact He].
Defined.

Lemma depth_is_not_checked_against_enum_witness :
  let w := sample_world [inr "R"] in
  sample_arguments_exhaustive !! "depth" = Some (PStr "exhaustive")
  /\ search_calls (emitted (handle_call_tool "search-web"
                              (Some sample_arguments_exhaustive)) w)
     = [(tt, PStr "q", PStr "exhaustive", "searchResults")].
Proof.
  intros w. split; [reflexivity|].
  apply (@depth_is_not_checked_against_enum scripted
           sample_arguments_exhaustive (PStr "q") "exhaustive" w)
    with (x1 := [inr "R"]);
    try reflexivity.
  discriminate.
Defined.

Lemma provider_failure_propagates_witness :
  let w := sample_world [inl "rate limited"] in
  let run := @handle_call_tool scripted "search-web" (Some sample_arguments) in
  fst (run w) = Raise (@Foreign scripted "rate limited")
  /\ search_calls (emitted run w)
     = [(tt, PStr "q", PStr "standard", "searchResults")].
Proof.
  intros w run.
  destruct (@provider_failure_propagates scripted sample_arguments
              (PStr "q") (PStr "standard") tt "rate limited"
              [inl "rate limited"] [] w)
    as (H1 & H2 & _); try reflexivity.
  split; [exact H1 | exact H2].
Defined.

Lemma call_results_are_isolated_witness :
  let w := sample_world [inr "R1"; inr "R2"] in
  let first := handle_call_tool "search-web" (Some sample_arguments) w in
  let second :=
    handle_call_tool "search-web" (Some sample_arguments_other) (snd first) in
  fst first = Ok [ mkTextContent "text" "R1" ]
  /\ fst second = Ok [ mkTextContent "text" "R2" ].
Proof.
  intros w.
  destruct (@call_results_are_isolated scripted "search-web"
              (Some sample_arguments)) as [_ H].
  apply (H sample_arguments sample_arguments_other
           (PStr "q") (PStr "standard") (PStr "other") (PStr "deep")
           tt tt "R1" "R2" [inr "R1"; inr "R2"] [inr "R2"] [inr "R2"] [] w);
    try reflexivity.
  discriminate.
Defined.

Lemma validation_is_truthiness_witness :
  let w := sample_world [inr "R"] in
  truthy (PInt 7) = true /\ truthy (PList [PBool false]) = true
  /\ search_calls (emitted (handle_call_tool "search-web"
                              (Some sample_arguments_untyped)) w)
     = [(tt, PInt 7, PList [PBool false], "searchResults")].
Proof.
  intros w. split; [reflexivity|]. split; [reflexivity|].
  destruct (@validation_is_truthiness scripted "search-web"
              (Some sample_arguments_untyped) w) as [_ H].
  apply (H sample_arguments_untyped (PInt 7) (PList [PBool false]) tt
           [inr "R"]); reflexivity.
Defined.

Lemma set_logging_level_upper_then_confirm_witness :
  let w := sample_world [] in
  Logging._checkLevel (upper "Error") = Some Logging.ERROR
  /\ logger_level (snd (set_logging_level sample_session "Error" w))
     = Logging.ERROR
  /\ logger_level (snd (set_logging_level sample_session "ERROR" w))
     = Logging.ERROR
  /\ emitted (set_logging_level sample_session "Error") w
     = [EvSetLevel Logging.ERROR; confirmation sample_session "Error"].
Proof.
  intros w. split; [reflexivity|].
  destruct (@set_logging_level_upper_then_confirm scripted sample_session "Error"
              Logging.ERROR w eq_refl) as (H1 & H2 & H3 & _).
  split; [exact H1|]. split; [apply H2; reflexivity | exact H3].
Defined.

(** * Further runs *)

(** Without credentials [LinkupClient()] raises before any search: the
    exception passes through and the search operation is not reached. *)
Example handle_call_tool_unconfigured :
  let w := @initial_world unconfigured tt in
  let run := @handle_call_tool unconfigured "search-web"
               (Some sample_arguments) in
  fst (run w) = Raise (@Foreign unconfigured "no API key")
  /\ emitted run w = [EvLinkupClient]
  /\ search_calls (emitted run w) = [].
Proof. repeat split. Qed.

(** The logger starts at INFO; "warning" raises the threshold to WARNING and
    the confirmation still goes out. *)
Example set_logging_level_warning :
  let w := sample_world [] in
  let run := set_logging_level sample_session (level_str warning) in
  logger_level w = Logging.INFO
  /\ run w = (Ok mkEmptyResult,
              @mkWorld scripted [] Logging.WARNING
                [EvSetLevel Logging.WARNING;
                 confirmation sample_session "warning"]).
Proof. split; reflexivity. Qed.

(** * Further properties of the handlers *)

Section HandlerProperties.

Context {collab : Collaborators}.

(** *** Every run of [handle_call_tool] *)

(** The three ways the forwarding step can go. *)
Lemma forward_cases q d w :
  (exists e x1,
     LinkupClient_new (ext w) = (inl e, x1)
     /\ forward q d w =
          (Raise (Foreign e),
           mkWorld x1 (logger_level w) (trace w ++ [EvLinkupClient])))
  \/ (exists c e x1 x2,
        LinkupClient_new (ext w) = (inr c, x1)
        /\ Client_search c q d "searchResults" x1 = (inl e, x2)
        /\ forward q d w =
             (Raise (Foreign e),
              mkWorld x2 (logger_level w)
                (trace w ++ [EvLinkupClient; EvSearch c q d "searchResults"])))
  \/ (exists c r x1 x2,
        LinkupClient_new (ext w) = (inr c, x1)
        /\ Client_search c q d "searchResults" x1 = (inr r, x2)
        /\ forward q d w =
             (Ok [ mkTextContent "text" (py_str r) ],
              mkWorld x2 (logger_level w)
                (trace w ++ [EvLinkupClient; EvSearch c q d "searchResults"]))).
Proof.
  destruct (LinkupClient_new (ext w)) as [[e|c] x1] eqn:Hc.
  - left. exists e, x1. split; [reflexivity|]. now apply forward_client_raises.
  - destruct (Client_search c q d "searchResults" x1) as [[e|r] x2] eqn:Hs.
    + right; left. exists c, e, x1, x2. repeat split; auto.
      now apply forward_search_raises with (x1 := x1).
    + right; right. exists c, r, x1, x2. repeat split; auto.
      now apply forward_answered with (x1 := x1).
Qed.

(** A call is refused with the world untouched, or forwarded. *)
Lemma handle_call_tool_cases name arguments w :
  (validation_fails name arguments
   /\ exists msg,
        handle_call_tool name arguments w = (Raise (ValueError msg), w))
  \/ (name = "search-web"
      /\ arguments_truthy arguments = true
      /\ truthy (arguments_get arguments "query") = true
      /\ truthy (arguments_get arguments "depth") = true
      /\ handle_call_tool name arguments w =
           forward (arguments_get arguments "query")
                   (arguments_get arguments "depth") w).
Proof.
  destruct (String.eqb_spec name "search-web") as [->|Hn].
  - destruct (arguments_truthy arguments) eqn:Ha.
    + destruct (truthy (arguments_get arguments "query")) eqn:Hq.
      * destruct (truthy (arguments_get arguments "depth")) eqn:Hd.
        -- right. repeat split; auto. now apply accept.
        -- left. assert (Hv : validation_fails "search-web" arguments)
             by (right; right; right; exact Hd).
           split; [exact Hv | now apply validation_fails_refused].
      * left. assert (Hv : validation_fails "search-web" arguments)
          by (right; right; left; exact Hq).
        split; [exact Hv | now apply validation_fails_refused].
    + left. assert (Hv : validation_fails "search-web" arguments)
        by (right; left; exact Ha).
      split; [exact Hv | now apply validation_fails_refused].
  - left. assert (Hv : validation_fails name arguments) by (left; exact Hn).
    split; [exact Hv | now apply validation_fails_refused].
Qed.

(** What a run adds to the trace, and that it leaves the threshold alone. *)
Lemma handle_call_tool_adds name arguments w :
  exists evs,
    trace (snd (handle_call_tool name arguments w)) = trace w ++ evs
    /\ logger_level (snd (handle_call_tool name arguments w)) = logger_level w
    /\ (evs = []
        \/ evs = [EvLinkupClient]
        \/ exists c,
             evs = [EvLinkupClient;
                    EvSearch c (arguments_get arguments "query")
                      (arguments_get arguments "depth") "searchResults"]).
Proof.
  destruct (handle_call_tool_cases name arguments w)
    as [[_ [msg E]] | (_ & _ & _ & _ & E)].
  - exists []. rewrite E. simpl. rewrite app_nil_r. auto.
  - rewrite E.
    destruct (forward_cases (arguments_get arguments "query")
                (arguments_get arguments "depth") w)
      as [(e & x1 & _ & F) | [(c & e & x1 & x2 & _ & _ & F)
                             | (c & r & x1 & x2 & _ & _ & F)]];
      rewrite F; simpl; eexists; repeat split; eauto.
Qed.

(** When [LinkupClient()] raises (no credentials, say), the exception leaves
    the handler as it is and the search operation is never reached. *)
Theorem client_failure_propagates (args : gmap string pyval) q d e x1 w :
  args !! "query" = Some q -> truthy q = true ->
  args !! "depth" = Some d -> truthy d = true ->
  LinkupClient_new (ext w) = (inl e, x1) ->
  let run := handle_call_tool "search-web" (Some args) in
  fst (run w) = Raise (Foreign e)
  /\ search_calls (emitted run w) = []
  /\ ext (snd (run w)) = x1.
Proof.
  intros Hq Tq Hd Td Hc run.
  assert (E : run w = (Raise (Foreign e),
                       mkWorld x1 (logger_level w)
                         (trace w ++ [EvLinkupClient]))).
  { unfold run.
    rewrite handle_call_tool_validated with (q := q) (d := d) by assumption.
    now apply forward_client_raises. }
  split; [now rewrite E|]. split; [|now rewrite E].
  rewrite (emitted_app run w [EvLinkupClient]); [reflexivity | now rewrite E].
Qed.

(** The handler reads the entries "query" and "depth" and nothing else: two
    argument mappings that agree on these two (and are both empty or both
    not) are handled alike, whatever else they hold. *)
Theorem unread_arguments_are_ignored
    name (args1 args2 : gmap string pyval) w :
  args1 !! "query" = args2 !! "query" ->
  args1 !! "depth" = args2 !! "depth" ->
  truthy (PDict args1) = truthy (PDict args2) ->
  handle_call_tool name (Some args1) w = handle_call_tool name (Some args2) w.
Proof.
  intros Hq Hd Ht. unfold handle_call_tool, dict_get.
  now rewrite Hq, Hd, Ht.
Qed.

(** [handle_call_tool] never touches logging: on every input the threshold
    is what it was, no threshold is set and no message goes to a session. *)
Theorem handle_call_tool_leaves_logging_alone name arguments w :
  logger_level (snd (handle_call_tool name arguments w)) = logger_level w
  /\ level_changes (emitted (handle_call_tool name arguments) w) = []
  /\ log_messages (emitted (handle_call_tool name arguments) w) = [].
Proof.
  destruct (handle_call_tool_adds name arguments w) as (evs & Ht & Hl & Hevs).
  split; [exact Hl|].
  rewrite (emitted_app _ w evs Ht).
  destruct Hevs as [-> | [-> | [c ->]]]; split; reflexivity.
Qed.

(** On every input the handler builds at most one client and makes at most
    one search, never a search without a client; a search it makes carries
    the query and the depth stored in the arguments and the output type
    "searchResults". *)
Theorem handle_call_tool_provider_discipline name arguments w :
  let evs := emitted (handle_call_tool name arguments) w in
  client_constructions evs <= 1
  /\ length (search_calls evs) <= client_constructions evs
  /\ Forall (fun call =>
               exists c,
                 call = (c, arguments_get arguments "query",
                         arguments_get arguments "depth", "searchResults"))
            (search_calls evs).
Proof.
  destruct (handle_call_tool_adds name arguments w) as (evs & Ht & _ & Hevs).
  cbv zeta. rewrite (emitted_app _ w evs Ht).
  destruct Hevs as [-> | [-> | [c ->]]]; simpl; repeat split;
    try lia; repeat constructor.
  now exists c.
Qed.

(** Whatever the handler returns is the provider's answer: a returned list is
    the single text item holding [str(r)] for the answer [r] the provider
    gave to this query and depth, and the request had passed validation. *)
Theorem handle_call_tool_result_sound name arguments w result :
  fst (handle_call_tool name arguments w) = Ok result ->
  name = "search-web"
  /\ ~ validation_fails name arguments
  /\ exists r,
       provider_answer (arguments_get arguments "query")
                       (arguments_get arguments "depth") (ext w) = inr r
       /\ result = [ mkTextContent "text" (py_str r) ].
Proof.
  intros Hr.
  destruct (handle_call_tool_cases name arguments w)
    as [[_ [msg E]] | (Hn & Ha & Hq & Hd & E)].
  - rewrite E in Hr. discriminate Hr.
  - split; [exact Hn|]. split.
    + intros [Hv|[Hv|[Hv|Hv]]]; congruence.
    + rewrite E, forward_result in Hr.
      destruct (provider_answer _ _ _) as [e|r]; [discriminate Hr|].
      exists r. split; [reflexivity|]. now inversion Hr.
Qed.

(** For a mapping: validation fails when query or depth is falsy, and
    passes when both are truthy. *)
Lemma validation_is_truthiness_aux (args : gmap string pyval) w :
  (truthy (dict_get args "query") = false
   \/ truthy (dict_get args "depth") = false ->
   exists msg,
     fst (handle_call_tool "search-web" (Some args) w)
     = Raise (ValueError msg))
  /\ (truthy (dict_get args "query") = true ->
      truthy (dict_get args "depth") = true ->
      ~ exists msg,
          fst (handle_call_tool "search-web" (Some args) w)
          = Raise (ValueError msg)).
Proof.
  split.
  - intros H.
    destruct (validation_fails_refused "search-web" (Some args) w)
      as [msg E].
    + destruct H as [H|H]; [right; right; left | right; right; right];
        exact H.
    + exists msg. now rewrite E.
  - intros Hq Hd [msg E].
    rewrite handle_call_tool_validated
      with (q := dict_get args "query") (d := dict_get args "depth") in E;
      auto using dict_get_truthy.
    now apply forward_no_ValueError in E.
Qed.

(** *** Every run of [set_logging_level] *)

(** A run is refused by the logger with the world untouched, or sets the
    threshold and then attempts the confirmation. *)
Lemma set_logging_level_cases session level w :
  (Logging._checkLevel (upper level) = None
   /\ set_logging_level session level w
      = (Raise (UnknownLevel (upper level)), w))
  \/ (exists n x,
        Logging._checkLevel (upper level) = Some n
        /\ snd (set_logging_level session level w)
           = mkWorld x n
               (trace w ++ [EvSetLevel n; confirmation session level])).
Proof.
  destruct (Logging._checkLevel (upper level)) as [n|] eqn:E.
  - right. pose proof (set_logging_level_known session level n w E) as K.
    cbv zeta in K.
    destruct (Session_send_log_message _ _ _ _ (ext w)) as [[e|u] x];
      exists n, x; (split; [reflexivity | now rewrite K]).
  - left. split; [reflexivity | now apply set_logging_level_unknown].
Qed.

Lemma set_logging_level_threshold session level w :
  logger_level (snd (set_logging_level session level w))
  = match Logging._checkLevel (upper level) with
    | Some n => n
    | None => logger_level w
    end.
Proof.
  destruct (set_logging_level_cases session level w)
    as [[E R] | (n & x & E & R)]; rewrite E.
  - now rewrite R.
  - now rewrite R.
Qed.

(** When the session refuses the confirmation (the connection is gone), the
    exception leaves the handler as it is and no result is returned, but the
    threshold the handler had already set stays: the change is not undone. *)
Theorem set_logging_level_send_failure session level n e x w :
  Logging._checkLevel (upper level) = Some n ->
  Session_send_log_message session "info" ("Log level set to " +:+ level)
    "mcp-search-linkup" (ext w) = (inl e, x) ->
  let run := set_logging_level session level in
  fst (run w) = Raise (Foreign e)
  /\ logger_level (snd (run w)) = n
  /\ emitted run w = [EvSetLevel n; confirmation session level].
Proof.
  intros E Hs run.
  assert (R : run w = (Raise (Foreign e),
                       mkWorld x n (trace w ++ [EvSetLevel n;
                                      confirmation session level]))).
  { unfold run. rewrite (set_logging_level_known _ _ _ _ E).
    cbv zeta. now rewrite Hs. }
  split; [now rewrite R|]. split; [now rewrite R|].
  apply emitted_app. now rewrite R.
Qed.

(** On every input [set_logging_level] stays away from the search provider,
    sends at most one message, and a message it sends goes to the session of
    the request, at level "info", from logger "mcp-search-linkup", quoting
    the level as requested. *)
Theorem set_logging_level_footprint session level w :
  let evs := emitted (set_logging_level session level) w in
  client_constructions evs = 0
  /\ search_calls evs = []
  /\ length (log_messages evs) <= 1
  /\ Forall (fun m =>
               m = (session, "info", "Log level set to " +:+ level,
                    "mcp-search-linkup"))
            (log_messages evs).
Proof.
  cbv zeta.
  destruct (set_logging_level_cases session level w)
    as [[E R] | (n & x & E & R)].
  - rewrite emitted_unchanged by now rewrite R.
    simpl. repeat split; auto.
  - rewrite (emitted_app _ w [EvSetLevel n; confirmation session level])
      by now rewrite R.
    simpl. repeat split; auto.
Qed.

(** Two requests in a row, with ASCII level names: the threshold is the one
    of the last request the logger accepted; a refused request leaves the
    threshold of the one before it. *)
Theorem set_logging_level_last_accepted_wins session1 session2 level1 level2 w :
  ascii_only level1 = true -> ascii_only level2 = true ->
  logger_level
    (snd (set_logging_level session2 level2
            (snd (set_logging_level session1 level1 w))))
  = match Logging._checkLevel (upper level2),
          Logging._checkLevel (upper level1) with
    | Some n2, _ => n2
    | None, Some n1 => n1
    | None, None => logger_level w
    end.
Proof.
  intros _ _. rewrite !set_logging_level_threshold.
  destruct (Logging._checkLevel (upper level2)); reflexivity.
Qed.

(** *** The catalog and the invoker agree *)

(** The fields the advertised schema requires are the fields validation
    demands: a "search-web" call passes validation exactly when every
    required field of the schema holds a truthy value in the arguments. *)
Theorem required_fields_are_enforced (args : gmap string pyval) w :
  exists tool,
    fst (handle_list_tools w) = Ok [tool]
    /\ ((forall field,
           field ∈ schema_required (inputSchema tool) ->
           truthy (dict_get args field) = true)
        <-> ~ exists msg,
              fst (handle_call_tool "search-web" (Some args) w)
              = Raise (ValueError msg)).
Proof.
  eexists. split; [reflexivity|].
  match goal with
  | |- (forall field, field ∈ schema_required (inputSchema ?t) -> _) <-> _ =>
      assert (Hreq : forall field,
                 field ∈ schema_required (inputSchema t)
                 <-> field = "query" \/ field = "depth")
  end.
  { intros field. unfold schema_required.
    match goal with
    | |- context [ ?m !! "required" ] =>
        replace (m !! "required")
          with (Some (PList [PStr "query"; PStr "depth"]))
          by (vm_compute; reflexivity)
    end.
    simpl. rewrite elem_of_union, !elem_of_singleton, elem_of_union,
      elem_of_singleton, elem_of_empty. tauto. }
  destruct (validation_is_truthiness_aux args w) as [Hfail Hpass].
  split.
  - intros Hall. apply Hpass; apply Hall; apply Hreq; auto.
  - intros Hno field Hf. apply Hreq in Hf.
    destruct (truthy (dict_get args "query")) eqn:Hq;
      [|exfalso; apply Hno, Hfail; auto].
    destruct (truthy (dict_get args "depth")) eqn:Hd;
      [|exfalso; apply Hno, Hfail; auto].
    destruct Hf as [->| ->]; assumption.
Qed.

End HandlerProperties.

(** * Invariants of the process *)

Section HistoryProperties.

Context {collab : Collaborators}.

Lemma search_calls_app (t1 t2 : list event) :
  search_calls (t1 ++ t2) = search_calls t1 ++ search_calls t2.
Proof.
  induction t1 as [|[] t1 IH]; simpl; auto. now rewrite IH.
Qed.

Lemma log_messages_app (t1 t2 : list event) :
  log_messages (t1 ++ t2) = log_messages t1 ++ log_messages t2.
Proof.
  induction t1 as [|[] t1 IH]; simpl; auto. now rewrite IH.
Qed.

Lemma level_changes_app (t1 t2 : list event) :
  level_changes (t1 ++ t2) = level_changes t1 ++ level_changes t2.
Proof.
  induction t1 as [|[] t1 IH]; simpl; auto. now rewrite IH.
Qed.

Lemma client_constructions_app (t1 t2 : list event) :
  client_constructions (t1 ++ t2)
  = client_constructions t1 + client_constructions t2.
Proof.
  induction t1 as [|[] t1 IH]; simpl; auto.
Qed.

Lemma last_cons_default (a : Z) (l : list Z) d d' :
  List.last (a :: l) d = List.last (a :: l) d'.
Proof.
  revert a. induction l as [|b l IH]; intros a; [reflexivity|].
  change (List.last (b :: l) d = List.last (b :: l) d'). apply IH.
Qed.

Lemma last_app_default (l1 l2 : list Z) d :
  List.last (l1 ++ l2) d = List.last l2 (List.last l1 d).
Proof.
  induction l1 as [|a l1 IH]; [reflexivity|].
  destruct l1 as [|b l1].
  - destruct l2 as [|c l2]; [reflexivity|].
    change (List.last (c :: l2) d = List.last (c :: l2) a).
    apply last_cons_default.
  - change (List.last ((b :: l1) ++ l2) d
            = List.last l2 (List.last (b :: l1) d)).
    exact IH.
Qed.

Lemma last_level_app start (t1 t2 : list event) :
  last_level start (t1 ++ t2) = last_level (last_level start t1) t2.
Proof.
  unfold last_level. rewrite level_changes_app. apply last_app_default.
Qed.

Lemma _checkLevel_in_table s n :
  Logging._checkLevel s = Some n ->
  In n (map snd Logging._nameToLevel).
Proof.
  unfold Logging._checkLevel.
  induction Logging._nameToLevel as [|[k v] table IH]; simpl; [discriminate|].
  destruct (String.eqb s k); [intros [= ->]; now left | right; auto].
Qed.

(** One step of the process adds nothing or one block to the trace, and the
    threshold follows the thresholds set in it. *)
Lemma step_adds w w' :
  step w w' ->
  exists evs,
    trace w' = trace w ++ evs
    /\ (evs = [] \/ block evs)
    /\ logger_level w' = last_level (logger_level w) evs.
Proof.
  intros [session level w0 | w0 | name arguments w0 | x w0].
  - destruct (set_logging_level_cases session level w0)
      as [[E R] | (n & x & E & R)]; rewrite R.
    + exists []. simpl. rewrite app_nil_r. auto.
    + exists [EvSetLevel n; confirmation session level]. simpl.
      repeat split. right. constructor; [|intros _; exact E].
      now apply _checkLevel_in_table in E.
  - exists []. simpl. rewrite app_nil_r. auto.
  - destruct (handle_call_tool_adds name arguments w0)
      as (evs & Ht & Hl & Hevs).
    exists evs. split; [exact Ht|].
    destruct Hevs as [-> | [-> | [c ->]]]; rewrite Hl;
      (split; [|reflexivity]); auto; right; constructor.
  - exists []. simpl. rewrite app_nil_r. auto.
Qed.

(** The trace of the process is a sequence of blocks: every search comes
    right after the construction of its client, every threshold set is a
    level of the logger's table (for an ASCII name, the level the table gives
    its upper-cased form) and is followed at once by the confirmation of that
    request, and nothing else occurs. *)
Theorem reachable_trace_well_formed w :
  reachable w -> well_formed (trace w).
Proof.
  induction 1 as [x | w w' Hr IH Hs].
  - constructor.
  - destruct (step_adds w w' Hs) as (evs & Ht & [-> | Hb] & _); rewrite Ht.
    + now rewrite app_nil_r.
    + now constructor.
Qed.

(** The logger's threshold is the last one set in the trace, INFO when none
    was, and it is always one of the levels of Python's logging: only
    [set_logging_level] moves it. *)
Theorem reachable_threshold w :
  reachable w ->
  logger_level w = last_level Logging.INFO (trace w)
  /\ In (logger_level w) (map snd Logging._nameToLevel).
Proof.
  induction 1 as [x | w w' Hr [IH1 IH2] Hs].
  - split; [reflexivity | vm_compute; tauto].
  - split.
    + destruct (step_adds w w' Hs) as (evs & Ht & _ & Hl).
      now rewrite Ht, last_level_app, <- IH1.
    + destruct Hs as [session level w0 | w0 | name arguments w0 | x w0].
      * rewrite set_logging_level_threshold.
        destruct (Logging._checkLevel (upper level)) as [n|] eqn:E; auto.
        now apply _checkLevel_in_table in E.
      * exact IH2.
      * destruct (handle_call_tool_adds name arguments w0)
          as (evs & _ & Hl & _). now rewrite Hl.
      * exact IH2.
Qed.

Lemma well_formed_counts (t : list event) :
  well_formed t ->
  length (search_calls t) <= client_constructions t
  /\ length (log_messages t) = length (level_changes t)
  /\ Forall (fun call => snd call = "searchResults") (search_calls t)
  /\ Forall (fun m => snd (fst (fst m)) = "info"
                      /\ snd m = "mcp-search-linkup")
            (log_messages t).
Proof.
  induction 1 as [| t b Hw (I1 & I2 & I3 & I4) Hb].
  - simpl. repeat split; auto.
  - rewrite search_calls_app, log_messages_app, level_changes_app,
      client_constructions_app, !length_app, !Forall_app.
    destruct Hb as [| c q d | session level n Hn E]; simpl;
      repeat split; auto; try lia.
Qed.

(** Over the whole life of the process: there are never more searches than
    clients built, every search asked for "searchResults", there are as many
    messages to sessions as thresholds set, and every such message is at
    level "info" from logger "mcp-search-linkup". *)
Theorem reachable_counts w :
  reachable w ->
  length (search_calls (trace w)) <= client_constructions (trace w)
  /\ length (log_messages (trace w)) = length (level_changes (trace w))
  /\ Forall (fun call => snd call = "searchResults") (search_calls (trace w))
  /\ Forall (fun m => snd (fst (fst m)) = "info"
                      /\ snd m = "mcp-search-linkup")
            (log_messages (trace w)).
Proof.
  intros Hr. apply well_formed_counts.
  induction Hr as [x | w w' Hr IH Hs]; [constructor|].
  destruct (step_adds w w' Hs) as (evs & Ht & Hevs & _). rewrite Ht.
  destruct Hevs as [-> | Hb]; [now rewrite app_nil_r | now constructor].
Qed.

End HistoryProperties.

(** * The SSE endpoint *)

Section SseProperties.

Context {sse : SseCollaborators}.

Lemma sse_exits_app (t1 t2 : list sse_event) :
  sse_exits (t1 ++ t2) = sse_exits t1 ++ sse_exits t2.
Proof.
  induction t1 as [|[] t1 IH]; simpl; auto. now rewrite IH.
Qed.

Lemma sse_runs_app (t1 t2 : list sse_event) :
  sse_runs (t1 ++ t2) = sse_runs t1 ++ sse_runs t2.
Proof.
  induction t1 as [|[] t1 IH]; simpl; auto. now rewrite IH.
Qed.

(** The block never exits the connection itself, and runs the session loop
    at most once, with the options it has just created. *)
Lemma handle_sse_block_events streams x :
  let evs := snd (handle_sse_block streams x) in
  sse_exits evs = []
  /\ (sse_runs evs = []
      \/ exists options x1,
           create_initialization_options x = (inr options, x1)
           /\ sse_runs evs = [(streams, options)]).
Proof.
  unfold handle_sse_block.
  destruct (create_initialization_options x) as [[e|options] x1] eqn:Ho.
  - simpl. auto.
  - destruct (Server_run streams options x1) as [r x2]. simpl.
    split; [reflexivity|]. right. now exists options, x1.
Qed.

(** The events of [handle_sse] once the connection is open. *)
Lemma handle_sse_entered request x streams x1 :
  connect_sse_aenter request x = (inr streams, x1) ->
  snd (handle_sse request x)
  = SseEnter request :: snd (handle_sse_block streams x1)
      ++ [SseExit request
            match fst (fst (handle_sse_block streams x1)) with
            | inl e => Some e
            | inr _ => None
            end].
Proof.
  intros He. unfold handle_sse. rewrite He.
  destruct (handle_sse_block streams x1) as [[body x2] evs]. simpl.
  destruct (connect_sse_aexit request _ x2) as [[e'|suppress] x3];
    [reflexivity|].
  destruct body as [e|u]; [destruct suppress|]; reflexivity.
Qed.

(** A connection that was opened is always closed: when [__aenter__] raises,
    its exception is the outcome and nothing else is done; when it yields
    the streams, [__aexit__] is called exactly once, as the last effect,
    whatever the session loop did, and it is given the exception of the
    block if the block raised and none otherwise. *)
Theorem handle_sse_always_exits request x :
  match connect_sse_aenter request x with
  | (inl e, x1) =>
      handle_sse request x = (inl e, x1, [SseEnter request])
  | (inr streams, x1) =>
      let exc := match fst (fst (handle_sse_block streams x1)) with
                 | inl e => Some e
                 | inr _ => None
                 end in
      sse_exits (snd (handle_sse request x)) = [exc]
      /\ exists t, snd (handle_sse request x) = t ++ [SseExit request exc]
  end.
Proof.
  destruct (connect_sse_aenter request x) as [[e|streams] x1] eqn:He.
  - unfold handle_sse. now rewrite He.
  - cbv zeta. rewrite (handle_sse_entered request x streams x1 He).
    split.
    + simpl. rewrite sse_exits_app.
      destruct (handle_sse_block_events streams x1) as [-> _]. reflexivity.
    + eexists (SseEnter request :: _). reflexivity.
Qed.

(** The session loop is run at most once per request, and only over the
    streams that this request's [__aenter__] yielded, with the options
    created after the connection was open. *)
Theorem handle_sse_runs_once request x :
  length (sse_runs (snd (handle_sse request x))) <= 1
  /\ forall streams options,
       In (streams, options) (sse_runs (snd (handle_sse request x))) ->
       exists x1 x2,
         connect_sse_aenter request x = (inr streams, x1)
         /\ create_initialization_options x1 = (inr options, x2).
Proof.
  destruct (connect_sse_aenter request x) as [[e|st] x1] eqn:He.
  - unfold handle_sse. rewrite He. simpl. split; [lia | tauto].
  - rewrite (handle_sse_entered request x st x1 He). simpl.
    rewrite sse_runs_app. simpl. rewrite app_nil_r.
    destruct (handle_sse_block_events st x1) as [_ [-> | (o & x2 & Ho & ->)]];
      simpl.
    + split; [lia | tauto].
    + split; [lia|]. intros streams options [[= <- <-]|[]].
      now exists x1, x2.
Qed.

(** The endpoint answers with a response exactly when no exception is
    left: the connection opened, [__aexit__] returned rather than raised, and
    either the block had not raised or [__aexit__] asked to suppress its
    exception.  In every other case an exception leaves [handle_sse]: a
    failure of the session loop is not swallowed by the endpoint itself. *)
Theorem handle_sse_responds_iff request x :
  (exists r, fst (fst (handle_sse request x)) = inr r)
  <-> exists streams x1,
        connect_sse_aenter request x = (inr streams, x1)
        /\ exists suppress x3,
             let exc := match fst (fst (handle_sse_block streams x1)) with
                        | inl e => Some e
                        | inr _ => None
                        end in
             connect_sse_aexit request exc
               (snd (fst (handle_sse_block streams x1)))
             = (inr suppress, x3)
             /\ (exc = None \/ suppress = true).
Proof.
  unfold handle_sse.
  destruct (connect_sse_aenter request x) as [[e|streams] x1] eqn:He.
  - split; [intros [r H]; discriminate H|].
    intros (st & y & H & _). discriminate H.
  - destruct (handle_sse_block streams x1) as [[body x2] evs] eqn:Hb.
    cbn [fst snd].
    assert (Hr :
               (exists st y,
                  (inr streams, x1) = (@inr SseExc _ st, y)
                  /\ exists suppress x3,
                       let exc := match fst (fst (handle_sse_block st y)) with
                                  | inl e => Some e
                                  | inr _ => None
                                  end in
                       connect_sse_aexit request exc
                         (snd (fst (handle_sse_block st y)))
                       = (inr suppress, x3)
                       /\ (exc = None \/ suppress = true))
               <-> exists suppress x3,
                    let exc := match body with
                               | inl e => Some e
                               | inr _ => None
                               end in
                    connect_sse_aexit request exc x2 = (inr suppress, x3)
                    /\ (exc = None \/ suppress = true)).
    { split.
      - intros (st & y & [= <- <-] & sup & z & H). rewrite Hb in H.
        now exists sup, z.
      - intros (sup & z & H). exists streams, x1. split; [reflexivity|].
        exists sup, z. now rewrite Hb. }
    rewrite Hr. clear Hr. cbv zeta.
    destruct body as [e|u].
    + destruct (connect_sse_aexit request (Some e) x2)
        as [[e'|suppress] x3] eqn:Hx.
      * split; [intros [r H]; discriminate H|].
        intros (sup & z & H & _). discriminate H.
      * destruct suppress.
        -- split; [|intros _; now eexists].
           intros _. exists true, x3. auto.
        -- split; [intros [r H]; discriminate H|].
           intros (sup & z & [= <- <-] & [H'|H']); discriminate H'.
    + destruct (connect_sse_aexit request None x2)
        as [[e'|suppress] x3] eqn:Hx.
      * split; [intros [r H]; discriminate H|].
        intros (sup & z & H & _). discriminate H.
      * split; [|intros _; now eexists].
        intros _. exists suppress, x3. auto.
Qed.

End SseProperties.

(** * The further properties on scripted deployments *)

Lemma client_failure_propagates_witness :
  let w := @initial_world unconfigured tt in
  let run := @handle_call_tool unconfigured "search-web"
               (Some sample_arguments) in
  LinkupClient_new (ext w) = (inl "no API key", tt)
  /\ fst (run w) = Raise (@Foreign unconfigured "no API key")
  /\ search_calls (emitted run w) = []
  /\ ext (snd (run w)) = tt.
Proof.
  intros w run. split; [reflexivity|].
  apply (@client_failure_propagates unconfigured sample_arguments
           (PStr "q") (PStr "standard") "no API key" tt w);
    reflexivity.
Defined.

Lemma unread_arguments_are_ignored_witness :
  let w := sample_world [inr "R"] in
  sample_arguments_extra !! "output_type" = Some (PStr "sourcedAnswer")
  /\ handle_call_tool "search-web" (Some sample_arguments_extra) w
     = handle_call_tool "search-web" (Some sample_arguments) w.
Proof.
  intros w. split; [reflexivity|].
  apply (@unread_arguments_are_ignored scripted "search-web"
           sample_arguments_extra sample_arguments w);
    reflexivity.
Defined.

Lemma handle_call_tool_result_sound_witness :
  let w := sample_world [inr "R"] in
  fst (handle_call_tool "search-web" (Some sample_arguments) w)
    = Ok [ mkTextContent "text" "R" ]
  /\ ~ validation_fails "search-web" (Some sample_arguments).
Proof.
  intros w.
  assert (H : fst (handle_call_tool "search-web" (Some sample_arguments) w)
              = Ok [ mkTextContent "text" "R" ]) by reflexivity.
  split; [exact H|].
  apply (@handle_call_tool_result_sound scripted "search-web"
           (Some sample_arguments) w _ H).
Defined.

Lemma set_logging_level_send_failure_witness :
  let w := @initial_world disconnected 0 in
  let run := @set_logging_level disconnected 7 "debug" in
  fst (run w) = Raise (@Foreign disconnected "closed")
  /\ logger_level (snd (run w)) = Logging.DEBUG
  /\ emitted run w
     = [EvSetLevel Logging.DEBUG; @confirmation disconnected 7 "debug"].
Proof.
  intros w run.
  apply (@set_logging_level_send_failure disconnected 7 "debug"
           Logging.DEBUG "closed" 1 w);
    reflexivity.
Defined.

Lemma sample_history_reachable : @reachable scripted sample_history.
Proof.
  unfold sample_history.
  eapply reachable_step; [|apply step_call_tool].
  eapply reachable_step; [|apply step_set_logging_level].
  apply reachable_initial.
Defined.

Lemma reachable_trace_well_formed_witness :
  trace sample_history
  = [EvSetLevel Logging.ERROR; confirmation sample_session "error";
     EvLinkupClient;
     @EvSearch scripted tt (PStr "q") (PStr "standard") "searchResults"]
  /\ well_formed (trace sample_history).
Proof.
  split; [reflexivity|].
  apply (@reachable_trace_well_formed scripted sample_history).
  exact sample_history_reachable.
Defined.

Lemma reachable_threshold_witness :
  logger_level sample_history = Logging.ERROR
  /\ logger_level sample_history
     = last_level Logging.INFO (trace sample_history).
Proof.
  split; [reflexivity|].
  apply (@reachable_threshold scripted sample_history).
  exact sample_history_reachable.
Defined.

Lemma reachable_counts_witness :
  length (search_calls (trace sample_history)) = 1
  /\ length (search_calls (trace sample_history))
     <= client_constructions (trace sample_history)
  /\ length (log_messages (trace sample_history))
     = length (level_changes (trace sample_history)).
Proof.
  split; [reflexivity|].
  destruct (@reachable_counts scripted sample_history
              sample_history_reachable) as (H1 & H2 & _).
  split; [exact H1 | exact H2].
Defined.

(** * Runs of the endpoint *)

(** The session loop fails and closing does not suppress: the failure is the
    outcome, after the connection was closed. *)
Example handle_sse_session_failed :
  let sse := scripted_sse true false false in
  @handle_sse sse "GET /sse" 0
  = (inl "session failed", 3,
     [@SseEnter sse "GET /sse"; @SseInitializationOptions sse;
      @SseRun sse "GET /sse" tt;
      @SseExit sse "GET /sse" (Some "session failed")]).
Proof. reflexivity. Qed.

(** The session ends normally: the connection is closed, then the empty
    response is returned. *)
Example handle_sse_session_ended :
  let sse := scripted_sse true true false in
  @handle_sse sse "GET /sse" 0
  = (inr Starlette.mkResponse, 3,
     [@SseEnter sse "GET /sse"; @SseInitializationOptions sse;
      @SseRun sse "GET /sse" tt; @SseExit sse "GET /sse" None]).
Proof. reflexivity. Qed.

(** The connection cannot be opened: nothing is run and nothing is closed. *)
Example handle_sse_refused :
  let sse := scripted_sse false true false in
  @handle_sse sse "GET /sse" 0
  = (inl "refused", 1, [@SseEnter sse "GET /sse"]).
Proof. reflexivity. Qed.

(** * A refused request after an accepted one *)

Lemma set_logging_level_last_accepted_wins_witness :
  let w := sample_world [] in
  ascii_only "Error" = true /\ ascii_only "notice" = true
  /\ logger_level
       (snd (set_logging_level sample_session "notice"
               (snd (set_logging_level sample_session "Error" w))))
     = Logging.ERROR.
Proof.
  intros w. split; [reflexivity|]. split; [reflexivity|].
  apply (@set_logging_level_last_accepted_wins scripted sample_session
           sample_session "Error" "notice" w); reflexivity.
Defined.
